(** * later: the paginated tweet resolver and the tweet-lookup API route

    A shallow embedding of
      - [src/app/tweets/queries/getTweets.ts] (the resolver [getTweets]), and
      - [src/app/api/twitter.ts] (the API route [handler]).

    Both are [async] functions that talk to collaborators (the database
    client, the session, the network, the identifier parser).  An [async]
    computation is modelled as a function from the log of collaborator calls
    made so far to an outcome (a value, or the exception it rejected with)
    and the extended log.  Collaborators are read-only within one request:
    they are functions from the arguments of a call to a reply.

    JavaScript numbers are modelled by [Z]: [skip], [take], list lengths and
    counts are integers far below 2^53, where double arithmetic is exact. *)

From Stdlib Require Import ZArith List String Ascii Bool Lia DecimalString.
Import ListNotations.

Set Implicit Arguments.

(** ** Promises: outcomes, the call log and sequencing *)

Module Async.

(** What a rejected promise carries.  [AuthorizationError] is raised by the
    session gate only, [TypeError] by a property access on [null] or
    [undefined], and [Rejected] wraps whatever a collaborator failed with. *)
Inductive Exception : Type :=
| AuthorizationError
| TypeError
| Rejected (reason : string).

Inductive Outcome (A : Type) : Type :=
| Fulfilled (a : A)
| Raised (e : Exception).
Arguments Raised {A} e.

(** What a collaborator answers to one call. *)
Inductive Reply (A : Type) : Type :=
| Answer (a : A)
| Failure (reason : string).
Arguments Failure {A} reason.

Definition outcome_of_reply {A} (r : Reply A) : Outcome A :=
  match r with
  | Answer a => Fulfilled a
  | Failure reason => Raised (Rejected reason)
  end.

Section Promise.
Variable Call : Type.

Definition Promise (A : Type) : Type :=
  list Call -> Outcome A * list Call.

Definition resolve {A} (a : A) : Promise A :=
  fun log => (Fulfilled a, log).

Definition throw {A} (e : Exception) : Promise A :=
  fun log => (Raised e, log).

(** [await p] followed by the rest of the function body. *)
Definition await {A B} (p : Promise A) (k : A -> Promise B) : Promise B :=
  fun log =>
    match p log with
    | (Fulfilled a, log') => k a log'
    | (Raised e, log') => (Raised e, log')
    end.

(** One call to a collaborator: it is appended to the log, and the
    collaborator's reply settles the promise. *)
Definition invoke {A} (c : Call) (r : Reply A) : Promise A :=
  fun log => (outcome_of_reply r, log ++ [c]).
End Promise.

Arguments resolve {Call A} a.
Arguments throw {Call A} e.
Arguments await {Call A B} p k.
Arguments invoke {Call A} c r.

End Async.

Import Async.

Declare Scope promise_scope.
Delimit Scope promise_scope with promise.
Notation "x <- p ;; k" := (await p (fun x => k))
  (at level 61, p at next level, right associativity) : promise_scope.

(** ** src/app/tweets/queries/getTweets.ts *)

Module GetTweets.

Local Open Scope Z_scope.
Local Open Scope promise_scope.

Definition with_default (o : option Z) (d : Z) : Z :=
  match o with
  | Some v => v
  | None => d
  end.

Section Resolver.
(** Prisma's filter, ordering and record types are opaque here. *)
Variables Where OrderBy Tweet : Type.

(** [Pick<Prisma.TweetFindManyArgs, "where" | "orderBy" | "skip" | "take">]:
    every field is optional ([None] is [undefined]). *)
Record GetTweetsInput : Type := {
  in_where : option Where;
  in_orderBy : option OrderBy;
  in_skip : option Z;
  in_take : option Z
}.

(** The argument objects the handler builds for the database client. *)
Record CountArgs : Type := { count_where : option Where }.

Record FindManyArgs : Type := {
  find_skip : Z;
  find_take : Z;
  find_where : option Where;
  find_orderBy : option OrderBy
}.

(** The persistence collaborator, [db.tweet]. *)
Record Db : Type := {
  db_tweet_count : CountArgs -> Reply Z;
  db_tweet_findMany : FindManyArgs -> Reply (list Tweet)
}.

Inductive DbCall : Type :=
| CountCall (args : CountArgs)
| FindManyCall (args : FindManyArgs).

(** The authorization collaborator: [ctx.session]. *)
Record Ctx : Type := { session_authorized : bool }.

(** [{skip, take}]: what [paginate] hands to [query], and the shape of
    [nextPage]. *)
Record PaginateArgs : Type := { pa_skip : Z; pa_take : Z }.

Record PaginateResult : Type := {
  pr_items : list Tweet;
  pr_nextPage : option PaginateArgs;
  pr_hasMore : bool;
  pr_count : Z
}.

Record TweetPage : Type := {
  tweets : list Tweet;
  nextPage : option PaginateArgs;
  hasMore : bool;
  count : Z
}.

Definition Query (A : Type) : Type := Promise DbCall A.

(** Modelled from the spec: [paginate] is imported from the [blitz]
    package and its code is not part of the sources.  Steps 1 to 5 of the
    algorithm of section 4.1: count, then find, then
    [hasMore = skip + items.length < totalCount] and
    [nextPage = hasMore ? {skip: skip + take, take} : null]. *)
Definition paginate (skip take : Z) (count : Query Z)
    (query : PaginateArgs -> Query (list Tweet)) : Query PaginateResult :=
  totalCount <- count ;;
  items <- query {| pa_skip := skip; pa_take := take |} ;;
  let hasMore := skip + Z.of_nat (List.length items) <? totalCount in
  let nextPage :=
    if hasMore then Some {| pa_skip := skip + take; pa_take := take |}
    else None in
  resolve {| pr_items := items; pr_nextPage := nextPage;
             pr_hasMore := hasMore; pr_count := totalCount |}.

(** Modelled from the spec: [resolver.authorize] is imported from the
    [blitz] package.  The gate of sections 4.1 and 6: it lets the input
    through for an authorized caller and fails with the unauthorized
    condition otherwise. *)
Definition resolver_authorize {A} (input : A) (ctx : Ctx) : Query A :=
  if session_authorized ctx then resolve input
  else throw AuthorizationError.

(** Modelled from the spec: [resolver.pipe] is imported from the [blitz]
    package.  Section 9: ordered composition, the result of each stage is
    the input of the next, and a failing stage ends the pipeline. *)
Definition resolver_pipe {A B C} (f : A -> Ctx -> Query B)
    (g : B -> Ctx -> Query C) : A -> Ctx -> Query C :=
  fun input ctx => x <- f input ctx ;; g x ctx.

Section Handler.
(** The handler is written over the [paginate] it calls. *)
Variable paginate_fn :
  Z -> Z -> Query Z -> (PaginateArgs -> Query (list Tweet)) ->
  Query PaginateResult.
Variable db : Db.

(** [async ({ where, orderBy, skip = 0, take = 100 }) => ...],
    lines 9 to 29. *)
Definition handler (input : GetTweetsInput) (ctx : Ctx)
    : Query TweetPage :=
  let where_ := in_where input in
  let orderBy := in_orderBy input in
  let skip := with_default (in_skip input) 0 in
  let take := with_default (in_take input) 100 in
  r <- paginate_fn skip take
         (let args := {| count_where := where_ |} in
          invoke (CountCall args) (db_tweet_count db args))
         (fun paginateArgs =>
            let args := {| find_skip := pa_skip paginateArgs;
                           find_take := pa_take paginateArgs;
                           find_where := where_;
                           find_orderBy := orderBy |} in
            invoke (FindManyCall args) (db_tweet_findMany db args)) ;;
  resolve {| tweets := pr_items r;
             nextPage := pr_nextPage r;
             hasMore := pr_hasMore r;
             count := pr_count r |}.

(** [resolver.pipe(resolver.authorize(), handler)], lines 7 to 30. *)
Definition getTweets_with : GetTweetsInput -> Ctx -> Query TweetPage :=
  resolver_pipe resolver_authorize handler.
End Handler.

(** The exported resolver. *)
Definition getTweets (db : Db) : GetTweetsInput -> Ctx -> Query TweetPage :=
  getTweets_with paginate db.

(** The argument objects of the two database calls of one invocation. *)
Definition count_args (input : GetTweetsInput) : CountArgs :=
  {| count_where := in_where input |}.

Definition find_args (input : GetTweetsInput) : FindManyArgs :=
  {| find_skip := with_default (in_skip input) 0;
     find_take := with_default (in_take input) 100;
     find_where := in_where input;
     find_orderBy := in_orderBy input |}.

End Resolver.

Arguments CountCall {Where OrderBy} args.
Arguments FindManyCall {Where OrderBy} args.

End GetTweets.

(** ** src/app/api/twitter.ts *)

Module TwitterApi.

Local Open Scope string_scope.
Local Open Scope promise_scope.

(** JavaScript values as the route sees them: what [Response.json()] yields
    (null, booleans, numbers, strings, arrays, objects with their properties
    in insertion order) and [undefined], the value of a missing property or
    element. *)
#[local] Unset Elimination Schemes.
Inductive JsVal : Type :=
| JUndefined
| JNull
| JBool (b : bool)
| JNum (n : Z)
| JStr (s : string)
| JArr (elems : list JsVal)
| JObj (props : list (string * JsVal)).
#[local] Set Elimination Schemes.

(** [req.query.url] has type [string | string[] | undefined]. *)
Inductive QueryValue : Type :=
| QAbsent
| QSingle (s : string)
| QRepeated (l : list string).

Record BlitzApiRequest : Type := { query_url : QueryValue }.

(** The second argument of [fetch]: [{ headers: { ... } }]. *)
Record RequestInit : Type := { headers : list (string * string) }.

(** A [Response]; [json()] reads and parses the body, and can fail. *)
Record Response : Type := { json : Reply JsVal }.

(** Everything the route reaches outside itself: the two constants of
    [app/constatnts], [process.env.TWITTER_BEARER_TOKEN], the parser of
    [app/utils/twitter], the network, and three operations of the runtime
    (the string form of a [URLSearchParams], the conversion a template
    literal applies to a value, and [JSON.stringify]). *)
Record World : Type := {
  twitter__tweet_endpoint : string;
  twitter__user_endpoint : string;
  TWITTER_BEARER_TOKEN : option string;
  tweetIdParser : JsVal -> Reply string;
  fetch : string -> RequestInit -> Reply Response;
  URLSearchParams_toString : list (string * string) -> string;
  ToString : JsVal -> string;
  JSON_stringify : JsVal -> string
}.

Inductive ApiCall : Type :=
| ParseCall (arg : JsVal)
| FetchCall (url : string) (init : RequestInit)
| EndCall (body : string).

Definition Route (A : Type) : Type := Promise ApiCall A.

(** An own property of an object, [undefined] when there is none. *)
Fixpoint own_property (k : string) (props : list (string * JsVal)) : JsVal :=
  match props with
  | [] => JUndefined
  | (k', v) :: rest => if String.eqb k k' then v else own_property k rest
  end.

(** The value of [v.k] where the access does not throw.  It is used at the
    names [data], [author_id], [text], [created_at] and [public_metrics],
    which no primitive, array or object prototype defines. *)
Definition property (v : JsVal) (k : string) : JsVal :=
  match v with
  | JObj props => own_property k props
  | _ => JUndefined
  end.

Definition nullish (v : JsVal) : bool :=
  match v with
  | JUndefined | JNull => true
  | _ => false
  end.

(** [v.k]: a [TypeError] on [null] and [undefined]. *)
Definition member (v : JsVal) (k : string) : Route JsVal :=
  if nullish v then throw TypeError else resolve (property v k).

(** [v[0]]: a [TypeError] on [null] and [undefined]; the first element of an
    array, the first character of a string, the property named [0] of an
    object; [undefined] where there is none. *)
Definition index0 (v : JsVal) : Route JsVal :=
  match v with
  | JUndefined | JNull => throw TypeError
  | JArr elems => resolve (nth 0 elems JUndefined)
  | JStr (String c _) => resolve (JStr (String c EmptyString))
  | JObj props => resolve (own_property "0" props)
  | _ => resolve JUndefined
  end.

(** A value of type [string | undefined] as a JavaScript value. *)
Definition optional_string (o : option string) : JsVal :=
  match o with
  | Some s => JStr s
  | None => JUndefined
  end.

(** A promise settled by a collaborator's reply, with nothing logged. *)
Definition settled {A} (r : Reply A) : Route A :=
  fun log => (outcome_of_reply r, log).

Section Handler.
Variable world : World.

(** [const handler = async (req, res) => { ... }], lines 5 to 48. *)
Definition handler (req : BlitzApiRequest) : Route unit :=
  let arg :=
    match query_url req with
    | QAbsent => JStr ""
    | QRepeated l => optional_string (nth_error l 0)
    | QSingle s => JStr s
    end in
  id <- invoke (ParseCall arg) (tweetIdParser world arg) ;;
  let token := optional_string (TWITTER_BEARER_TOKEN world) in
  let tweetParams :=
    [("ids", id);
     ("tweet.fields", "author_id,public_metrics,created_at")] in
  let userParams := [("user.fields", "profile_image_url")] in
  let tweetUrl :=
    twitter__tweet_endpoint world
      ++ URLSearchParams_toString world tweetParams in
  let tweetInit :=
    {| headers := [("authorization", "Bearer " ++ ToString world token)] |} in
  tweetResponse <- invoke (FetchCall tweetUrl tweetInit)
                          (fetch world tweetUrl tweetInit) ;;
  tweetBody <- settled (json tweetResponse) ;;
  tweetData <- member tweetBody "data" ;;
  tweet <- index0 tweetData ;;
  author_id <- member tweet "author_id" ;;
  let userUrl :=
    twitter__user_endpoint world ++ ToString world author_id ++ "?"
      ++ URLSearchParams_toString world userParams in
  let userInit :=
    {| headers := [("authorization", "Bearer " ++ ToString world token)] |} in
  userResponse <- invoke (FetchCall userUrl userInit)
                         (fetch world userUrl userInit) ;;
  userBody <- settled (json userResponse) ;;
  user <- member userBody "data" ;;
  text <- member tweet "text" ;;
  created_at <- member tweet "created_at" ;;
  public_metrics <- member tweet "public_metrics" ;;
  invoke (EndCall (JSON_stringify world
                     (JObj [("id", JStr id);
                            ("user", user);
                            ("text", text);
                            ("created_at", created_at);
                            ("public_metrics", public_metrics)])))
         (Answer tt).

(** The expressions of the body that the properties below refer to: the
    argument of [tweetIdParser] (lines 7 to 11), the two addresses fetched
    (lines 24 and 32) and the options of both fetches (lines 25 to 27 and
    33 to 35). *)
Definition parser_argument (url : QueryValue) : JsVal :=
  match url with
  | QAbsent => JStr ""
  | QRepeated l => optional_string (nth_error l 0)
  | QSingle s => JStr s
  end.

Definition tweet_url (id : string) : string :=
  twitter__tweet_endpoint world
    ++ URLSearchParams_toString world
         [("ids", id);
          ("tweet.fields", "author_id,public_metrics,created_at")].

Definition user_url (author_id : JsVal) : string :=
  twitter__user_endpoint world ++ ToString world author_id ++ "?"
    ++ URLSearchParams_toString world
         [("user.fields", "profile_image_url")].

Definition bearer_init : RequestInit :=
  {| headers :=
       [("authorization",
         "Bearer "
           ++ ToString world (optional_string (TWITTER_BEARER_TOKEN world)))]
  |}.

(** The object handed to [JSON.stringify], lines 40 to 46. *)
Definition response_object (id : string) (user tweet : JsVal) : JsVal :=
  JObj [("id", JStr id);
        ("user", user);
        ("text", property tweet "text");
        ("created_at", property tweet "created_at");
        ("public_metrics", property tweet "public_metrics")].
End Handler.

End TwitterApi.

(** ** Concrete collaborators, used to run the two operations *)

Module Examples.

Import GetTweets.

Local Open Scope Z_scope.

(** An in-memory table of tweet ids; the filter is a lower bound on the id,
    and the ordering is the table's own. *)
Definition matching (where_ : option nat) (rows : list nat) : list nat :=
  match where_ with
  | Some bound => filter (fun r => Nat.leb bound r) rows
  | None => rows
  end.

Definition memory_db (rows : list nat) : Db nat unit nat := {|
  db_tweet_count := fun args =>
    Answer (Z.of_nat (List.length (matching (count_where args) rows)));
  db_tweet_findMany := fun args =>
    Answer (firstn (Z.to_nat (find_take args))
              (skipn (Z.to_nat (find_skip args))
                 (matching (find_where args) rows)))
|}.

Definition seven_rows : list nat := [1; 2; 3; 4; 5; 6; 7]%nat.

Definition signed_in : Ctx := {| session_authorized := true |}.
Definition anonymous : Ctx := {| session_authorized := false |}.

Definition page_request (skip take : option Z) : GetTweetsInput nat unit := {|
  in_where := Some 3%nat;
  in_orderBy := None;
  in_skip := skip;
  in_take := take
|}.

(** A world for the API route.  The runtime operations are simple stand-ins:
    parameters are joined without escaping, a template shows a string as it
    is, and the serializer renders the values of the example, which hold no
    character that needs escaping. *)
Import TwitterApi.

Local Open Scope string_scope.

Definition join_params (params : list (string * string)) : string :=
  String.concat "&" (map (fun kv => fst kv ++ "=" ++ snd kv) params).

Definition show_in_template (v : JsVal) : string :=
  match v with
  | JStr s => s
  | JNull => "null"
  | _ => "undefined"
  end.

Definition quote : string := String (ascii_of_nat 34) EmptyString.

Fixpoint render (v : JsVal) : string :=
  match v with
  | JUndefined | JNull => "null"
  | JBool true => "true"
  | JBool false => "false"
  | JNum n => NilZero.string_of_int (Z.to_int n)
  | JStr s => quote ++ s ++ quote
  | JArr elems => "[" ++ String.concat "," (map render elems) ++ "]"
  | JObj props =>
      "{" ++ String.concat ","
               (map (fun kv => quote ++ fst kv ++ quote ++ ":"
                               ++ render (snd kv)) props)
          ++ "}"
  end.

Definition example_tweet : JsVal :=
  JObj [("id", JStr "20");
        ("text", JStr "T1");
        ("author_id", JStr "A1");
        ("created_at", JStr "2020-01-01T00:00:00Z");
        ("public_metrics", JObj [("like_count", JNum 3)])].

Definition example_user : JsVal :=
  JObj [("id", JStr "A1"); ("profile_image_url", JStr "http://img")].

Definition example_world : World := {|
  twitter__tweet_endpoint := "https://api.twitter.com/2/tweets?";
  twitter__user_endpoint := "https://api.twitter.com/2/users/";
  TWITTER_BEARER_TOKEN := Some "secret";
  tweetIdParser := fun arg =>
    match arg with
    | JStr s => Answer s
    | _ => Failure "not a string"
    end;
  fetch := fun url _ =>
    if String.eqb url
         "https://api.twitter.com/2/tweets?ids=20&tweet.fields=author_id,public_metrics,created_at"
    then Answer {| json := Answer (JObj [("data", JArr [example_tweet])]) |}
    else if String.eqb url
         "https://api.twitter.com/2/users/A1?user.fields=profile_image_url"
    then Answer {| json := Answer (JObj [("data", example_user)]) |}
    else Failure "unreachable";
  URLSearchParams_toString := join_params;
  ToString := show_in_template;
  JSON_stringify := render
|}.

End Examples.

(** ** Vocabulary for the further properties *)

Module Pagination.

Import GetTweets.

Local Open Scope Z_scope.

Section Consistency.
Variables Where OrderBy Tweet : Type.

(** What an offset-and-limit query answers over the matching records. *)
Definition slice (records : list Tweet) (skip take : Z) : list Tweet :=
  firstn (Z.to_nat take) (skipn (Z.to_nat skip) records).

(** The database answers for one filter and ordering as a table holding
    [records] does: the count is their number, and a find from a
    non-negative offset is their slice. *)
Definition consistent (db : Db Where OrderBy Tweet)
    (where_ : option Where) (orderBy : option OrderBy)
    (records : list Tweet) : Prop :=
  db_tweet_count db {| count_where := where_ |}
  = Answer (Z.of_nat (List.length records))
  /\ forall skip take,
       0 <= skip ->
       db_tweet_findMany db {| find_skip := skip; find_take := take;
                               find_where := where_;
                               find_orderBy := orderBy |}
       = Answer (slice records skip take).
End Consistency.

End Pagination.

Module Lookup.

Import TwitterApi.

Local Open Scope string_scope.

(** The value of [v[0]] where the access does not throw. *)
Definition first_element (v : JsVal) : JsVal :=
  match v with
  | JArr elems => nth 0 elems JUndefined
  | JStr (String c _) => JStr (String c EmptyString)
  | JObj props => own_property "0" props
  | _ => JUndefined
  end.

(** A parsed tweet-lookup body from which line 29 and line 32 cannot take a
    tweet: the body, its [data], or the first element of [data] is [null] or
    [undefined]. *)
Definition tweet_missing (body : JsVal) : bool :=
  nullish body
  || nullish (property body "data")
  || nullish (first_element (property body "data")).

(** A world whose network answers every address under the tweet endpoint
    with [tweetReply] and every other address with [userReply]. *)
Definition scripted_world (token : option string)
    (tweetReply userReply : Reply Response) : World := {|
  twitter__tweet_endpoint := "https://api.twitter.com/2/tweets?";
  twitter__user_endpoint := "https://api.twitter.com/2/users/";
  TWITTER_BEARER_TOKEN := token;
  tweetIdParser := fun arg =>
    match arg with
    | JStr s => Answer s
    | _ => Failure "not a string"
    end;
  fetch := fun url _ =>
    if String.prefix "https://api.twitter.com/2/tweets?" url
    then tweetReply else userReply;
  URLSearchParams_toString := Examples.join_params;
  ToString := Examples.show_in_template;
  JSON_stringify := Examples.render
|}.

Definition body_reply (body : JsVal) : Reply Response :=
  Answer {| json := Answer body |}.

(** Scripted worlds: the tweet lookup finds the example tweet or not, and
    the user lookup answers or not. *)
Definition found_reply : Reply Response :=
  body_reply (JObj [("data", JArr [Examples.example_tweet])]).

Definition not_found_body : JsVal :=
  JObj [("errors", JArr [JStr "not found"])].

Definition tweet_lookup_down : World :=
  scripted_world (Some "secret") (Failure "timeout") (Failure "unused").

Definition tweet_unknown : World :=
  scripted_world (Some "secret") (body_reply not_found_body)
    (Failure "unused").

Definition user_lookup_down : World :=
  scripted_world (Some "secret") found_reply (Failure "timeout").

Definition user_body_null : World :=
  scripted_world (Some "secret") found_reply (body_reply JNull).

Definition token_unset : World :=
  scripted_world None found_reply (body_reply JNull).

(** The calls of one request, in the order the body makes them: the parser
    (line 6), the tweet lookup (line 23) and the user lookup (line 31). *)
Definition parse_call (url : QueryValue) : ApiCall :=
  ParseCall (parser_argument url).

Definition tweet_call (world : World) (id : string) : ApiCall :=
  FetchCall (tweet_url world id) (bearer_init world).

Definition user_call (world : World) (tweet : JsVal) : ApiCall :=
  FetchCall (user_url world (property tweet "author_id")) (bearer_init world).

End Lookup.

(** ** Properties of the paginated resolver *)

Module GetTweetsSpec.

Import GetTweets Examples.

Local Open Scope Z_scope.

Section Properties.
Variables Where OrderBy Tweet : Type.
Variable db : Db Where OrderBy Tweet.

(** An authorized invocation whose two queries are answered returns one
    page, after a count call followed by a find call. *)
Lemma getTweets_run input ctx log totalCount items :
  session_authorized ctx = true ->
  db_tweet_count db (count_args input) = Answer totalCount ->
  db_tweet_findMany db (find_args input) = Answer items ->
  let skip := with_default (in_skip input) 0 in
  let take := with_default (in_take input) 100 in
  let more := skip + Z.of_nat (List.length items) <? totalCount in
  getTweets db input ctx log =
    (Fulfilled {| tweets := items;
                  nextPage := if more
                              then Some {| pa_skip := skip + take;
                                           pa_take := take |}
                              else None;
                  hasMore := more;
                  count := totalCount |},
     (log ++ [CountCall (count_args input)])
       ++ [FindManyCall (find_args input)]).
Proof.
  intros Hauth Hcount Hfind.
  unfold getTweets, getTweets_with, resolver_pipe, resolver_authorize.
  rewrite Hauth.
  unfold handler, paginate, await, invoke, resolve; cbn.
  fold (count_args input). rewrite Hcount; cbn.
  fold (find_args input). rewrite Hfind; cbn.
  reflexivity.
Qed.

(** The length of an offset-and-limit slice. *)
Lemma slice_length (A : Type) (rows : list A) (skip take : nat) :
  List.length (firstn take (skipn skip rows))
  = Nat.min take (List.length rows - skip).
Proof. now rewrite length_firstn, length_skipn. Qed.

(** C1: the page's [hasMore] is [skip + items.length < totalCount], for the
    count and the items the persistence collaborator answered with. *)
Theorem getTweets_hasMore input ctx log totalCount items :
  session_authorized ctx = true ->
  db_tweet_count db (count_args input) = Answer totalCount ->
  db_tweet_findMany db (find_args input) = Answer items ->
  exists page log',
    getTweets db input ctx log = (Fulfilled page, log')
    /\ tweets page = items
    /\ hasMore page
       = (with_default (in_skip input) 0 + Z.of_nat (List.length items)
          <? totalCount).
Proof.
  intros Hauth Hcount Hfind.
  eexists; eexists; split.
  - apply (getTweets_run input ctx log Hauth Hcount Hfind).
  - split; reflexivity.
Qed.

(** C3: the page's [nextPage] is [{skip: skip + take, take}] when [hasMore]
    is true and [null] when it is false. *)
Theorem getTweets_nextPage input ctx log totalCount items :
  session_authorized ctx = true ->
  db_tweet_count db (count_args input) = Answer totalCount ->
  db_tweet_findMany db (find_args input) = Answer items ->
  exists page log',
    getTweets db input ctx log = (Fulfilled page, log')
    /\ nextPage page
       = if hasMore page
         then Some {| pa_skip := with_default (in_skip input) 0
                                 + with_default (in_take input) 100;
                      pa_take := with_default (in_take input) 100 |}
         else None.
Proof.
  intros Hauth Hcount Hfind.
  eexists; eexists; split.
  - apply (getTweets_run input ctx log Hauth Hcount Hfind).
  - reflexivity.
Qed.

(** C4: a caller the gate rejects gets the unauthorized condition, and the
    log of database calls is left as it was: neither [count] nor [findMany]
    is invoked.  This holds whatever [paginate] the handler is run with. *)
Theorem getTweets_unauthorized paginate_fn input ctx log :
  session_authorized ctx = false ->
  getTweets_with paginate_fn db input ctx log
  = (Raised AuthorizationError, log).
Proof.
  intros Hauth.
  unfold getTweets_with, resolver_pipe, resolver_authorize, await, throw.
  now rewrite Hauth.
Qed.

(** C5: when the matching records are [records], the count is their number
    and the find result is their slice from [skip] of at most [take]
    elements, a find result shorter than [take] gives [hasMore = false]. *)
Theorem getTweets_short_page_is_last input ctx log (records : list Tweet) :
  let skip := with_default (in_skip input) 0 in
  let take := with_default (in_take input) 100 in
  let items := firstn (Z.to_nat take) (skipn (Z.to_nat skip) records) in
  session_authorized ctx = true ->
  0 <= skip ->
  db_tweet_count db (count_args input)
  = Answer (Z.of_nat (List.length records)) ->
  db_tweet_findMany db (find_args input) = Answer items ->
  Z.of_nat (List.length items) < take ->
  exists page log',
    getTweets db input ctx log = (Fulfilled page, log')
    /\ tweets page = items
    /\ hasMore page = false.
Proof.
  intros skip take items Hauth Hskip Hcount Hfind Hshort.
  eexists; eexists; split.
  - apply (getTweets_run input ctx log Hauth Hcount Hfind).
  - split; [reflexivity|]. cbn.
    apply Z.ltb_ge. fold skip.
    change (firstn _ _) with items.
    unfold items in *. rewrite slice_length in *. lia.
Qed.

(** C6: the page's [count] is what the count operation answered for the
    filter, and two invocations that differ only in [skip] and [take] return
    the same [count]. *)
Theorem getTweets_count where_ orderBy skip1 take1 skip2 take2
    ctx log1 log2 totalCount items1 items2 :
  let input1 := {| in_where := where_; in_orderBy := orderBy;
                   in_skip := skip1; in_take := take1 |} in
  let input2 := {| in_where := where_; in_orderBy := orderBy;
                   in_skip := skip2; in_take := take2 |} in
  session_authorized ctx = true ->
  db_tweet_count db {| count_where := where_ |} = Answer totalCount ->
  db_tweet_findMany db (find_args input1) = Answer items1 ->
  db_tweet_findMany db (find_args input2) = Answer items2 ->
  exists page1 log1' page2 log2',
    getTweets db input1 ctx log1 = (Fulfilled page1, log1')
    /\ getTweets db input2 ctx log2 = (Fulfilled page2, log2')
    /\ count page1 = totalCount
    /\ count page2 = count page1.
Proof.
  intros input1 input2 Hauth Hcount Hfind1 Hfind2.
  do 4 eexists. split; [|split].
  - apply (getTweets_run input1 ctx log1 Hauth Hcount Hfind1).
  - apply (getTweets_run input2 ctx log2 Hauth Hcount Hfind2).
  - split; reflexivity.
Qed.

(** C7: with [skip] and [take] omitted, the handler and the piped resolver
    are the same computations as with [skip = 0] and [take = 100], whatever
    [paginate] they are run with. *)
Theorem getTweets_defaults paginate_fn where_ orderBy ctx log :
  let omitted := {| in_where := where_; in_orderBy := orderBy;
                    in_skip := None; in_take := None |} in
  let explicit := {| in_where := where_; in_orderBy := orderBy;
                     in_skip := Some 0; in_take := Some 100 |} in
  handler paginate_fn db omitted ctx log
  = handler paginate_fn db explicit ctx log
  /\ getTweets_with paginate_fn db omitted ctx log
     = getTweets_with paginate_fn db explicit ctx log.
Proof.
  split; [reflexivity |].
  unfold getTweets_with, resolver_pipe, resolver_authorize, await.
  destruct (session_authorized ctx); reflexivity.
Qed.

End Properties.

(** Runs on the in-memory table: five rows match the filter. *)

Lemma getTweets_hasMore_witness :
  exists page log',
    getTweets (memory_db seven_rows) (page_request (Some 2) (Some 2))
      signed_in [] = (Fulfilled page, log')
    /\ tweets page = [5; 6]%nat
    /\ hasMore page = (2 + 2 <? 5).
Proof.
  apply (getTweets_hasMore (memory_db seven_rows)
           (page_request (Some 2) (Some 2)) signed_in []);
    reflexivity.
Defined.

Lemma getTweets_nextPage_witness :
  exists page log',
    getTweets (memory_db seven_rows) (page_request (Some 2) (Some 2))
      signed_in [] = (Fulfilled page, log')
    /\ nextPage page
       = if hasMore page then Some {| pa_skip := 2 + 2; pa_take := 2 |}
         else None.
Proof.
  apply (getTweets_nextPage (memory_db seven_rows)
           (page_request (Some 2) (Some 2)) signed_in []
           (totalCount := 5) (items := [5; 6]%nat));
    reflexivity.
Defined.

Lemma getTweets_unauthorized_witness :
  getTweets (memory_db seven_rows) (page_request None None) anonymous []
  = (Raised AuthorizationError, []).
Proof.
  apply (getTweets_unauthorized (memory_db seven_rows)
           (paginate (Where := nat) (OrderBy := unit) (Tweet := nat))
           (page_request None None) anonymous []).
  reflexivity.
Defined.

Lemma getTweets_short_page_is_last_witness :
  exists page log',
    getTweets (memory_db seven_rows) (page_request (Some 4) (Some 2))
      signed_in [] = (Fulfilled page, log')
    /\ tweets page = [7]%nat
    /\ hasMore page = false.
Proof.
  apply (getTweets_short_page_is_last (memory_db seven_rows)
           (page_request (Some 4) (Some 2)) signed_in []
           [3; 4; 5; 6; 7]%nat);
    first [reflexivity | cbn; lia].
Defined.

Lemma getTweets_count_witness :
  exists page1 log1' page2 log2',
    getTweets (memory_db seven_rows) (page_request (Some 0) (Some 2))
      signed_in [] = (Fulfilled page1, log1')
    /\ getTweets (memory_db seven_rows) (page_request None None)
         signed_in [] = (Fulfilled page2, log2')
    /\ count page1 = 5
    /\ count page2 = count page1.
Proof.
  apply (getTweets_count (memory_db seven_rows) (Some 3%nat) None
           (Some 0) (Some 2) None None signed_in [] []
           (items1 := [3; 4]%nat) (items2 := [3; 4; 5; 6; 7]%nat));
    reflexivity.
Defined.

End GetTweetsSpec.

(** ** Properties of the tweet-lookup route *)

Module TwitterApiSpec.

Import TwitterApi Examples.

Local Open Scope string_scope.

(** Case analysis on the next collaborator reply or value the body of
    [handler] inspects. *)
Ltac next_step :=
  match goal with
  | |- context [outcome_of_reply ?r] => destruct r; cbn
  | |- context [nullish ?v] => destruct (nullish v); cbn
  | |- context [match ?v with JUndefined => _ | _ => _ end] =>
      destruct v; cbn
  | |- context [match ?s with EmptyString => _ | String _ _ => _ end] =>
      destruct s; cbn
  end.

Ltac normalize_log := repeat rewrite <- app_assoc; cbn [app].

Section Properties.
Variable world : World.

(** Every run starts by calling the parser on the normalized [url], and
    never calls it again. *)
Lemma handler_parses_once (url : QueryValue) (log : list ApiCall) :
  exists outcome rest,
    handler world {| query_url := url |} log
    = (outcome, (log ++ ParseCall (parser_argument url) :: rest)%list)
    /\ forall arg, ~ In (ParseCall arg) rest.
Proof.
  unfold handler, await, invoke, settled, member, index0, resolve, throw.
  cbn [query_url]. fold (parser_argument url).
  repeat next_step;
    normalize_log;
    (do 2 eexists; split; [reflexivity |]);
    intros arg Hin; cbn in Hin; intuition discriminate.
Qed.

(** C2: when the parser yields [id], the tweet lookup answers a body whose
    [data] array starts with [tweet], and the user lookup for
    [tweet.author_id] answers [userBody], the route ends the response with the
    serialized object [{id, user: userBody.data, text: tweet.text,
    created_at: tweet.created_at, public_metrics: tweet.public_metrics}]. *)
Theorem handler_response url log id tweetResponse tweetBody tweet others
    userResponse userBody :
  tweetIdParser world (parser_argument url) = Answer id ->
  fetch world (tweet_url world id) (bearer_init world)
  = Answer tweetResponse ->
  json tweetResponse = Answer tweetBody ->
  property tweetBody "data" = JArr (tweet :: others) ->
  nullish tweet = false ->
  fetch world (user_url world (property tweet "author_id"))
    (bearer_init world) = Answer userResponse ->
  json userResponse = Answer userBody ->
  nullish userBody = false ->
  handler world {| query_url := url |} log
  = (Fulfilled tt,
     (log ++ [ParseCall (parser_argument url);
              FetchCall (tweet_url world id) (bearer_init world);
              FetchCall (user_url world (property tweet "author_id"))
                (bearer_init world);
              EndCall (JSON_stringify world
                         (response_object id (property userBody "data")
                            tweet))])%list).
Proof.
  intros Hparse Hfetch1 Hjson1 Hdata Htweet Hfetch2 Hjson2 Huser.
  assert (Hbody : nullish tweetBody = false).
  { destruct tweetBody; try reflexivity; discriminate Hdata. }
  unfold handler, await, invoke, settled, member, resolve, throw.
  cbn [query_url]. fold (parser_argument url).
  rewrite Hparse; cbn [outcome_of_reply].
  fold (tweet_url world id). fold (bearer_init world).
  rewrite Hfetch1; cbn [outcome_of_reply].
  rewrite Hjson1; cbn [outcome_of_reply].
  rewrite Hbody, Hdata; cbn [index0 nth resolve].
  rewrite Htweet.
  fold (user_url world (property tweet "author_id")).
  rewrite Hfetch2; cbn [outcome_of_reply].
  rewrite Hjson2; cbn [outcome_of_reply].
  rewrite Huser.
  normalize_log. reflexivity.
Qed.

(** C8: with the [url] parameter absent, the parser is invoked with the
    empty string (once, as the first call of the run). *)
Theorem handler_url_absent (log : list ApiCall) :
  exists outcome rest,
    handler world {| query_url := QAbsent |} log
    = (outcome, (log ++ ParseCall (JStr "") :: rest)%list)
    /\ forall arg, ~ In (ParseCall arg) rest.
Proof. exact (handler_parses_once QAbsent log). Qed.

(** C9: with the [url] parameter given as a sequence of strings, the parser
    is invoked with the first element of the sequence. *)
Theorem handler_url_repeated (first : string) (others : list string)
    (log : list ApiCall) :
  exists outcome rest,
    handler world {| query_url := QRepeated (first :: others) |} log
    = (outcome, (log ++ ParseCall (JStr first) :: rest)%list)
    /\ forall arg, ~ In (ParseCall arg) rest.
Proof. exact (handler_parses_once (QRepeated (first :: others)) log). Qed.

End Properties.

(** C10: with the [url] parameter given as an empty sequence, the parser is
    invoked with [undefined], which is not the empty string; and there is a
    world in which such a request and one without the parameter end
    differently. *)
Theorem handler_url_empty_sequence :
  (forall world log,
     exists outcome rest,
       handler world {| query_url := QRepeated [] |} log
       = (outcome, (log ++ ParseCall JUndefined :: rest)%list)
       /\ forall arg, ~ In (ParseCall arg) rest)
  /\ JUndefined <> JStr ""
  /\ exists world,
       fst (handler world {| query_url := QRepeated [] |} [])
       <> fst (handler world {| query_url := QAbsent |} []).
Proof.
  split; [| split].
  - intros world log. exact (handler_parses_once world (QRepeated []) log).
  - discriminate.
  - exists example_world. cbn. discriminate.
Qed.

(** The example of the specification: tweet [T1] by author [A1]. *)
Lemma handler_response_witness :
  handler example_world {| query_url := QSingle "20" |} []
  = (Fulfilled tt,
     [ParseCall (JStr "20");
      FetchCall (tweet_url example_world "20") (bearer_init example_world);
      FetchCall (user_url example_world (JStr "A1"))
        (bearer_init example_world);
      EndCall (render (response_object "20" example_user example_tweet))]).
Proof.
  apply (handler_response example_world (QSingle "20") []
           (id := "20")
           (tweetResponse :=
              {| json := Answer (JObj [("data", JArr [example_tweet])]) |})
           (tweetBody := JObj [("data", JArr [example_tweet])])
           (tweet := example_tweet) (others := [])
           (userResponse :=
              {| json := Answer (JObj [("data", example_user)]) |})
           (userBody := JObj [("data", example_user)]));
    reflexivity.
Defined.

End TwitterApiSpec.

(** ** Further properties of the paginated resolver *)

Module GetTweetsMore.

Import GetTweets Examples Pagination.

Local Open Scope Z_scope.

Section Properties.
Variables Where OrderBy Tweet : Type.
Variable db : Db Where OrderBy Tweet.

(** Every run of the resolver, stage by stage. *)
Lemma getTweets_cases (input : GetTweetsInput Where OrderBy) ctx log :
  getTweets db input ctx log =
    if session_authorized ctx then
      match db_tweet_count db (count_args input) with
      | Failure reason =>
          (Raised (Rejected reason), log ++ [CountCall (count_args input)])
      | Answer totalCount =>
          match db_tweet_findMany db (find_args input) with
          | Failure reason =>
              (Raised (Rejected reason),
               log ++ [CountCall (count_args input);
                       FindManyCall (find_args input)])
          | Answer items =>
              let skip := with_default (in_skip input) 0 in
              let take := with_default (in_take input) 100 in
              let more := skip + Z.of_nat (List.length items) <? totalCount in
              (Fulfilled {| tweets := items;
                            nextPage :=
                              if more
                              then Some {| pa_skip := skip + take;
                                           pa_take := take |}
                              else None;
                            hasMore := more;
                            count := totalCount |},
               log ++ [CountCall (count_args input);
                       FindManyCall (find_args input)])
          end
      end
    else (Raised AuthorizationError, log).
Proof.
  unfold getTweets, getTweets_with, resolver_pipe, resolver_authorize.
  destruct (session_authorized ctx); [| reflexivity].
  unfold handler, paginate, await, invoke, resolve; cbn.
  fold (count_args input) (find_args input).
  destruct (db_tweet_count db (count_args input)); cbn; [| reflexivity].
  destruct (db_tweet_findMany db (find_args input)); cbn;
    now rewrite <- app_assoc.
Qed.

(** The page a consistent database gives to an authorized caller. *)
Lemma getTweets_consistent_run where_ orderBy skip take ctx log
    (records : list Tweet) :
  consistent db where_ orderBy records ->
  session_authorized ctx = true ->
  0 <= skip ->
  let input := {| in_where := where_; in_orderBy := orderBy;
                  in_skip := Some skip; in_take := Some take |} in
  let more := skip + Z.of_nat (List.length (slice records skip take))
              <? Z.of_nat (List.length records) in
  getTweets db input ctx log =
    (Fulfilled {| tweets := slice records skip take;
                  nextPage := if more
                              then Some {| pa_skip := skip + take;
                                           pa_take := take |}
                              else None;
                  hasMore := more;
                  count := Z.of_nat (List.length records) |},
     log ++ [CountCall (count_args input); FindManyCall (find_args input)]).
Proof.
  intros [Hcount Hfind] Hauth Hskip input more.
  rewrite getTweets_cases, Hauth.
  unfold count_args, find_args; cbn.
  rewrite Hcount, (Hfind skip take Hskip). reflexivity.
Qed.

Lemma slice_length_Z (records : list Tweet) (skip take : Z) :
  List.length (slice records skip take)
  = Nat.min (Z.to_nat take) (List.length records - Z.to_nat skip).
Proof. unfold slice. now rewrite length_firstn, length_skipn. Qed.

Lemma firstn_sum (A : Type) (n m : nat) (l : list A) :
  firstn (n + m) l = firstn n l ++ firstn m (skipn n l).
Proof.
  revert l; induction n as [| n IH]; intros l; [reflexivity |].
  destruct l as [| x l]; cbn.
  - now rewrite firstn_nil.
  - now rewrite IH.
Qed.

(** X11: in every run, whatever the session and the database answer, a
    count call carries the input's filter and a find call carries the same
    filter, the input's ordering and its [skip] and [take] (0 and 100 when
    omitted); at most two calls are made. *)
Theorem getTweets_queries_only_the_input
    (input : GetTweetsInput Where OrderBy) ctx log :
  exists outcome calls,
    getTweets db input ctx log = (outcome, log ++ calls)
    /\ (forall args, In (CountCall args) calls -> args = count_args input)
    /\ (forall args, In (FindManyCall args) calls -> args = find_args input)
    /\ (List.length calls <= 2)%nat.
Proof.
  rewrite getTweets_cases.
  destruct (session_authorized ctx).
  - destruct (db_tweet_count db (count_args input)).
    + destruct (db_tweet_findMany db (find_args input));
        (do 2 eexists; split; [reflexivity |]);
        (repeat split; [| | cbn; lia]);
        intros args Hin; cbn in Hin;
        intuition congruence.
    + do 2 eexists; split; [reflexivity |].
      repeat split; [| | cbn; lia];
        intros args Hin; cbn in Hin; intuition congruence.
  - exists (Raised AuthorizationError), [].
    rewrite app_nil_r. repeat split; [| | cbn; lia]; intros args [].
Qed.

(** X12: a failure of the database is not recovered from: when the count
    fails, or the count answers and the find fails, an authorized call is
    rejected with the reason the database gave, and no page is returned. *)
Theorem getTweets_persistence_failure
    (input : GetTweetsInput Where OrderBy) ctx log reason :
  session_authorized ctx = true ->
  db_tweet_count db (count_args input) = Failure reason
  \/ (exists totalCount,
        db_tweet_count db (count_args input) = Answer totalCount
        /\ db_tweet_findMany db (find_args input) = Failure reason) ->
  fst (getTweets db input ctx log) = Raised (Rejected reason).
Proof.
  intros Hauth Hfail. rewrite getTweets_cases, Hauth.
  destruct Hfail as [Hcount | [totalCount [Hcount Hfind]]].
  - now rewrite Hcount.
  - now rewrite Hcount, Hfind.
Qed.

(** X13: over a consistent database, [hasMore] is exact: it is true if and
    only if records remain after [skip + take], and then the page is full
    and [nextPage] starts right after the last record returned. *)
Theorem getTweets_hasMore_exact where_ orderBy skip take ctx log
    (records : list Tweet) :
  consistent db where_ orderBy records ->
  session_authorized ctx = true ->
  0 <= skip ->
  0 <= take ->
  exists page log',
    getTweets db {| in_where := where_; in_orderBy := orderBy;
                    in_skip := Some skip; in_take := Some take |} ctx log
    = (Fulfilled page, log')
    /\ (hasMore page = true
        <-> skipn (Z.to_nat (skip + take)) records <> [])
    /\ (hasMore page = true ->
        Z.of_nat (List.length (tweets page)) = take
        /\ nextPage page
           = Some {| pa_skip := skip + Z.of_nat (List.length (tweets page));
                     pa_take := take |}).
Proof.
  intros Hdb Hauth Hskip Htake.
  do 2 eexists. split.
  - apply (getTweets_consistent_run _ _ log Hdb Hauth Hskip).
  - cbn. rewrite slice_length_Z.
    assert (Hrest : skipn (Z.to_nat (skip + take)) records <> []
                    <-> (Z.to_nat (skip + take) < List.length records)%nat).
    { rewrite <- skipn_all_iff. lia. }
    split.
    + rewrite Hrest, Z.ltb_lt. lia.
    + intros Hmore. rewrite Hmore.
      apply Z.ltb_lt in Hmore.
      assert (Hfull : Z.of_nat (Nat.min (Z.to_nat take)
                                  (List.length records - Z.to_nat skip))
                      = take) by lia.
      split; [exact Hfull | now rewrite Hfull].
Qed.

(** X14: over a consistent database, a page with [hasMore = false] holds
    every record from [skip] on, and its [nextPage] is [null]. *)
Theorem getTweets_last_page where_ orderBy skip take ctx log
    (records : list Tweet) :
  consistent db where_ orderBy records ->
  session_authorized ctx = true ->
  0 <= skip ->
  exists page log',
    getTweets db {| in_where := where_; in_orderBy := orderBy;
                    in_skip := Some skip; in_take := Some take |} ctx log
    = (Fulfilled page, log')
    /\ (hasMore page = false ->
        tweets page = skipn (Z.to_nat skip) records
        /\ nextPage page = None).
Proof.
  intros Hdb Hauth Hskip.
  do 2 eexists. split.
  - apply (getTweets_consistent_run _ _ log Hdb Hauth Hskip).
  - cbn. intros Hlast. rewrite Hlast. split; [| reflexivity].
    apply Z.ltb_ge in Hlast. rewrite slice_length_Z in Hlast.
    unfold slice. apply firstn_all2. rewrite length_skipn. lia.
Qed.

(** X15: over a consistent database, calling the resolver again with the
    [nextPage] of a page continues where that page ended: the two pages
    together are the slice of [take + take] records from [skip]. *)
Theorem getTweets_follow_nextPage where_ orderBy skip take ctx log
    (records : list Tweet) :
  consistent db where_ orderBy records ->
  session_authorized ctx = true ->
  0 <= skip ->
  0 <= take ->
  exists page1 log1,
    getTweets db {| in_where := where_; in_orderBy := orderBy;
                    in_skip := Some skip; in_take := Some take |} ctx log
    = (Fulfilled page1, log1)
    /\ (hasMore page1 = true ->
        exists next page2 log2,
          nextPage page1 = Some next
          /\ getTweets db {| in_where := where_; in_orderBy := orderBy;
                             in_skip := Some (pa_skip next);
                             in_take := Some (pa_take next) |} ctx log1
             = (Fulfilled page2, log2)
          /\ tweets page1 ++ tweets page2
             = slice records skip (take + take)).
Proof.
  intros Hdb Hauth Hskip Htake.
  do 2 eexists. split.
  - apply (getTweets_consistent_run _ _ log Hdb Hauth Hskip).
  - cbn. intros Hmore. rewrite Hmore.
    do 3 eexists. split; [reflexivity |]. cbn. split.
    + apply (getTweets_consistent_run _ _ _ Hdb Hauth). lia.
    + cbn. unfold slice.
      replace (Z.to_nat (take + take))
        with (Z.to_nat take + Z.to_nat take)%nat by lia.
      rewrite firstn_sum, skipn_skipn.
      replace (Z.to_nat take + Z.to_nat skip)%nat
        with (Z.to_nat (skip + take)) by lia.
      reflexivity.
Qed.

End Properties.

Lemma memory_db_consistent (rows : list nat) (where_ : option nat) :
  consistent (memory_db rows) where_ None (matching where_ rows).
Proof. split; [reflexivity | intros skip take _; reflexivity]. Defined.

Lemma getTweets_persistence_failure_witness :
  fst (getTweets
         {| db_tweet_count := fun _ => Failure "connection lost"%string;
            db_tweet_findMany := fun _ => Answer ([] : list nat) |}
         (page_request None None) signed_in [])
  = Raised (Rejected "connection lost"%string).
Proof.
  apply (getTweets_persistence_failure
           {| db_tweet_count := fun _ => Failure "connection lost"%string;
              db_tweet_findMany := fun _ => Answer ([] : list nat) |}
           (page_request None None) signed_in []).
  - reflexivity.
  - left. reflexivity.
Defined.

Lemma getTweets_hasMore_exact_witness :
  exists page log',
    getTweets (memory_db seven_rows) (page_request (Some 2) (Some 2))
      signed_in [] = (Fulfilled page, log')
    /\ (hasMore page = true <-> [7]%nat <> [])
    /\ (hasMore page = true ->
        Z.of_nat (List.length (tweets page)) = 2
        /\ nextPage page
           = Some {| pa_skip := 2 + Z.of_nat (List.length (tweets page));
                     pa_take := 2 |}).
Proof.
  apply (@getTweets_hasMore_exact nat unit nat (memory_db seven_rows) (Some 3%nat) None
           2 2 signed_in [] _ (memory_db_consistent seven_rows (Some 3%nat)));
    first [reflexivity | lia].
Defined.

Lemma getTweets_last_page_witness :
  exists page log',
    getTweets (memory_db seven_rows) (page_request (Some 4) (Some 2))
      signed_in [] = (Fulfilled page, log')
    /\ (hasMore page = false ->
        tweets page = [7]%nat /\ nextPage page = None).
Proof.
  apply (@getTweets_last_page nat unit nat (memory_db seven_rows) (Some 3%nat) None
           4 2 signed_in [] _ (memory_db_consistent seven_rows (Some 3%nat)));
    first [reflexivity | lia].
Defined.

Lemma getTweets_follow_nextPage_witness :
  exists page1 log1,
    getTweets (memory_db seven_rows) (page_request (Some 0) (Some 2))
      signed_in [] = (Fulfilled page1, log1)
    /\ (hasMore page1 = true ->
        exists next page2 log2,
          nextPage page1 = Some next
          /\ getTweets (memory_db seven_rows)
               (page_request (Some (pa_skip next)) (Some (pa_take next)))
               signed_in log1
             = (Fulfilled page2, log2)
          /\ tweets page1 ++ tweets page2 = [3; 4; 5; 6]%nat).
Proof.
  apply (@getTweets_follow_nextPage nat unit nat (memory_db seven_rows) (Some 3%nat) None
           0 2 signed_in [] _ (memory_db_consistent seven_rows (Some 3%nat)));
    first [reflexivity | lia].
Defined.

End GetTweetsMore.

(** ** Further properties of the tweet-lookup route *)

Module TwitterApiMore.

Import TwitterApi Examples Lookup TwitterApiSpec.

Local Open Scope string_scope.

Lemma index0_first_element (v : JsVal) :
  index0 v = if nullish v then throw TypeError
             else resolve (first_element v).
Proof. destruct v as [| | | | s | |]; try reflexivity. now destruct s. Qed.

Section Properties.
Variable world : World.

(** Every run of the route, stage by stage. *)
Lemma handler_cases (url : QueryValue) (log : list ApiCall) :
  handler world {| query_url := url |} log =
    match tweetIdParser world (parser_argument url) with
    | Failure reason => (Raised (Rejected reason), (log ++ [parse_call url])%list)
    | Answer id =>
      let failed e :=
        (Raised (A := unit) e, (log ++ [parse_call url; tweet_call world id])%list) in
      match fetch world (tweet_url world id) (bearer_init world) with
      | Failure reason => failed (Rejected reason)
      | Answer tweetResponse =>
        match json tweetResponse with
        | Failure reason => failed (Rejected reason)
        | Answer tweetBody =>
          if tweet_missing tweetBody then failed TypeError
          else
            let tweet := first_element (property tweetBody "data") in
            let failed2 e :=
              (Raised (A := unit) e,
               (log ++ [parse_call url; tweet_call world id; user_call world tweet])%list) in
            match fetch world (user_url world (property tweet "author_id"))
                    (bearer_init world) with
            | Failure reason => failed2 (Rejected reason)
            | Answer userResponse =>
              match json userResponse with
              | Failure reason => failed2 (Rejected reason)
              | Answer userBody =>
                if nullish userBody then failed2 TypeError
                else
                  (Fulfilled tt,
                   (log ++ [parse_call url; tweet_call world id; user_call world tweet;
                            EndCall (JSON_stringify world
                                       (response_object id
                                          (property userBody "data") tweet))])%list)
              end
            end
        end
      end
    end.
Proof.
  unfold parse_call, tweet_call, user_call.
  unfold handler, await, invoke, settled, member, resolve, throw.
  cbn [query_url]. fold (parser_argument url).
  destruct (tweetIdParser world (parser_argument url)) as [id | reason];
    cbn [outcome_of_reply]; [| reflexivity].
  fold (tweet_url world id) (bearer_init world).
  destruct (fetch world (tweet_url world id) (bearer_init world))
    as [tweetResponse | reason];
    cbn [outcome_of_reply]; [| now normalize_log].
  destruct (json tweetResponse) as [tweetBody | reason];
    cbn [outcome_of_reply]; [| now normalize_log].
  unfold tweet_missing.
  destruct (nullish tweetBody); cbn [orb]; [now normalize_log |].
  rewrite index0_first_element. unfold resolve, throw.
  destruct (nullish (property tweetBody "data")); cbn [orb];
    [now normalize_log |].
  destruct (nullish (first_element (property tweetBody "data")));
    [now normalize_log |].
  cbv zeta.
  fold (user_url world
          (property (first_element (property tweetBody "data")) "author_id")).
  destruct (fetch world _ (bearer_init world)) as [userResponse | reason];
    cbn [outcome_of_reply]; [| now normalize_log].
  destruct (json userResponse) as [userBody | reason];
    cbn [outcome_of_reply]; [| now normalize_log].
  destruct (nullish userBody); now normalize_log.
Qed.

(** X1: a [url] given once, as a string, is passed to the parser as it is. *)
Theorem handler_url_single (s : string) (log : list ApiCall) :
  exists outcome rest,
    handler world {| query_url := QSingle s |} log
    = (outcome, (log ++ ParseCall (JStr s) :: rest)%list)
    /\ forall arg, ~ In (ParseCall arg) rest.
Proof. exact (handler_parses_once world (QSingle s) log). Qed.

(** X2: a repeated [url] behaves in every respect as its first value given
    once (the other values are ignored), and an absent [url] as the empty
    string given once. *)
Theorem handler_url_equivalences (s : string) (others : list string)
    (log : list ApiCall) :
  handler world {| query_url := QRepeated (s :: others) |} log
  = handler world {| query_url := QSingle s |} log
  /\ handler world {| query_url := QAbsent |} log
     = handler world {| query_url := QSingle "" |} log.
Proof. split; reflexivity. Qed.

(** X3: when the parser fails, the request is rejected with the parser's
    reason; nothing is fetched and the response is never ended. *)
Theorem handler_parser_failure url log reason :
  tweetIdParser world (parser_argument url) = Failure reason ->
  handler world {| query_url := url |} log
  = (Raised (Rejected reason), (log ++ [parse_call url])%list).
Proof. intros Hparse. now rewrite handler_cases, Hparse. Qed.

(** X4: when the tweet lookup fails, on the network or while its body is
    read as JSON, the request is rejected with that reason after this one
    fetch: the user lookup is not made and the response is never ended. *)
Theorem handler_tweet_lookup_failure url log id reason :
  tweetIdParser world (parser_argument url) = Answer id ->
  fetch world (tweet_url world id) (bearer_init world) = Failure reason
  \/ (exists tweetResponse,
        fetch world (tweet_url world id) (bearer_init world)
        = Answer tweetResponse
        /\ json tweetResponse = Failure reason) ->
  handler world {| query_url := url |} log
  = (Raised (Rejected reason),
     (log ++ [parse_call url; tweet_call world id])%list).
Proof.
  intros Hparse Hfail. rewrite handler_cases, Hparse.
  destruct Hfail as [Hfetch | [tweetResponse [Hfetch Hjson]]].
  - now rewrite Hfetch.
  - now rewrite Hfetch, Hjson.
Qed.

(** X5: when the tweet lookup answers a body without a tweet (the body, its
    [data] or the first element of [data] is [null] or missing), the request
    is rejected with a [TypeError]: the user lookup is not made and the
    response is never ended. *)
Theorem handler_tweet_missing url log id tweetResponse tweetBody :
  tweetIdParser world (parser_argument url) = Answer id ->
  fetch world (tweet_url world id) (bearer_init world)
  = Answer tweetResponse ->
  json tweetResponse = Answer tweetBody ->
  tweet_missing tweetBody = true ->
  handler world {| query_url := url |} log
  = (Raised TypeError, (log ++ [parse_call url; tweet_call world id])%list).
Proof.
  intros Hparse Hfetch Hjson Hmissing.
  now rewrite handler_cases, Hparse, Hfetch, Hjson, Hmissing.
Qed.

(** X6: when a tweet was found and the user lookup fails, on the network or
    while its body is read as JSON, the request is rejected with that reason
    after the two fetches, and the response is never ended: no partial
    result is sent. *)
Theorem handler_user_lookup_failure url log id tweetResponse tweetBody
    reason :
  tweetIdParser world (parser_argument url) = Answer id ->
  fetch world (tweet_url world id) (bearer_init world)
  = Answer tweetResponse ->
  json tweetResponse = Answer tweetBody ->
  tweet_missing tweetBody = false ->
  let tweet := first_element (property tweetBody "data") in
  fetch world (user_url world (property tweet "author_id"))
    (bearer_init world) = Failure reason
  \/ (exists userResponse,
        fetch world (user_url world (property tweet "author_id"))
          (bearer_init world) = Answer userResponse
        /\ json userResponse = Failure reason) ->
  handler world {| query_url := url |} log
  = (Raised (Rejected reason),
     (log ++ [parse_call url; tweet_call world id;
              user_call world tweet])%list).
Proof.
  intros Hparse Hfetch Hjson Hfound tweet Hfail.
  rewrite handler_cases, Hparse, Hfetch, Hjson, Hfound. cbv zeta.
  fold tweet.
  destruct Hfail as [Hfetch2 | [userResponse [Hfetch2 Hjson2]]].
  - now rewrite Hfetch2.
  - now rewrite Hfetch2, Hjson2.
Qed.

(** X7: when a tweet was found and the user lookup answers the JSON value
    [null], the request is rejected with a [TypeError] after the two fetches
    and the response is never ended. *)
Theorem handler_user_body_null url log id tweetResponse tweetBody
    userResponse :
  tweetIdParser world (parser_argument url) = Answer id ->
  fetch world (tweet_url world id) (bearer_init world)
  = Answer tweetResponse ->
  json tweetResponse = Answer tweetBody ->
  tweet_missing tweetBody = false ->
  let tweet := first_element (property tweetBody "data") in
  fetch world (user_url world (property tweet "author_id"))
    (bearer_init world) = Answer userResponse ->
  json userResponse = Answer JNull ->
  handler world {| query_url := url |} log
  = (Raised TypeError,
     (log ++ [parse_call url; tweet_call world id;
              user_call world tweet])%list).
Proof.
  intros Hparse Hfetch Hjson Hfound tweet Hfetch2 Hjson2.
  rewrite handler_cases, Hparse, Hfetch, Hjson, Hfound. cbv zeta.
  fold tweet. now rewrite Hfetch2, Hjson2.
Qed.

(** The shape of the calls of any run. *)
Lemma handler_trace (url : QueryValue) (log : list ApiCall) :
  exists outcome calls,
    handler world {| query_url := url |} log = (outcome, (log ++ calls)%list)
    /\ ((exists e, outcome = Raised e /\ calls = [parse_call url])
        \/ (exists e id,
              outcome = Raised e
              /\ calls = [parse_call url; tweet_call world id])
        \/ (exists e id tweet,
              outcome = Raised e
              /\ calls = [parse_call url; tweet_call world id;
                          user_call world tweet])
        \/ (exists id tweet body,
              outcome = Fulfilled tt
              /\ calls = [parse_call url; tweet_call world id;
                          user_call world tweet; EndCall body])).
Proof.
  rewrite handler_cases.
  cbv zeta.
  repeat match goal with
         | |- context [match ?r with Answer _ => _ | Failure _ => _ end] =>
             destruct r
         | |- context [if ?b then _ else _] => destruct b
         end; (do 2 eexists; split; [reflexivity |]);
    first [ left; eexists; split; reflexivity
          | right; left; do 2 eexists; split; reflexivity
          | right; right; left; do 3 eexists; split; reflexivity
          | right; right; right; do 3 eexists; split; reflexivity ].
Qed.


(** X9: the response is ended if and only if the request succeeds, and then
    exactly once, as the last call of the run. *)
Theorem handler_responds_iff_fulfilled (url : QueryValue)
    (log : list ApiCall) :
  exists outcome calls,
    handler world {| query_url := url |} log = (outcome, (log ++ calls)%list)
    /\ (outcome = Fulfilled tt <-> exists body, In (EndCall body) calls)
    /\ (forall body,
          In (EndCall body) calls ->
          exists before,
            calls = (before ++ [EndCall body])%list
            /\ forall body', ~ In (EndCall body') before).
Proof.
  destruct (handler_trace url log) as (outcome & calls & Hrun & Hshape).
  exists outcome, calls. split; [exact Hrun |].
  unfold parse_call, tweet_call, user_call in Hshape.
  destruct Hshape as [(e & -> & ->) | [(e & id & -> & ->)
    | [(e & id & tweet & -> & ->) | (id & tweet & body & -> & ->)]]].
  1-3: split; [split; [discriminate | intros [body Hin]] | intros body Hin];
       cbn in Hin; exfalso; intuition discriminate.
  split.
  - split; [intros _; exists body; cbn; auto | reflexivity].
  - intros body' Hin. cbn in Hin.
    destruct Hin as [Hin | [Hin | [Hin | [Hin | []]]]]; try discriminate.
    injection Hin as <-.
    eexists [_; _; _]. split; [reflexivity |].
    intros b Hb. cbn in Hb. intuition discriminate.
Qed.

(** X10: an unset [TWITTER_BEARER_TOKEN] is not detected: once the parser
    has answered, the tweet lookup is fetched all the same, with the header
    built from [undefined]. *)
Theorem handler_unset_token url log id :
  TWITTER_BEARER_TOKEN world = None ->
  tweetIdParser world (parser_argument url) = Answer id ->
  exists outcome rest,
    handler world {| query_url := url |} log
    = (outcome,
       (log ++ parse_call url
            :: FetchCall (tweet_url world id)
                 {| headers :=
                      [("authorization",
                        ("Bearer " ++ ToString world JUndefined)%string)] |}
            :: rest)%list).
Proof.
  intros Htoken Hparse.
  assert (Hinit : bearer_init world
                  = {| headers :=
                         [("authorization",
                           "Bearer " ++ ToString world JUndefined)] |}).
  { unfold bearer_init. now rewrite Htoken. }
  rewrite handler_cases, Hparse.
  unfold tweet_call. rewrite Hinit.
  cbv zeta.
  repeat match goal with
         | |- context [match ?r with Answer _ => _ | Failure _ => _ end] =>
             destruct r
         | |- context [if ?b then _ else _] => destruct b
         end; do 2 eexists; reflexivity.
Qed.

End Properties.

(** Runs in scripted worlds. *)

Lemma handler_parser_failure_witness :
  handler example_world {| query_url := QRepeated [] |} []
  = (Raised (Rejected "not a string"), [ParseCall JUndefined]).
Proof.
  apply (handler_parser_failure example_world (QRepeated []) []).
  reflexivity.
Defined.

Lemma handler_tweet_lookup_failure_witness :
  handler tweet_lookup_down {| query_url := QSingle "20" |} []
  = (Raised (Rejected "timeout"),
     [ParseCall (JStr "20"); tweet_call tweet_lookup_down "20"]).
Proof.
  apply (handler_tweet_lookup_failure tweet_lookup_down (QSingle "20") []
           (id := "20")).
  - reflexivity.
  - left. reflexivity.
Defined.

Lemma handler_tweet_missing_witness :
  handler tweet_unknown {| query_url := QSingle "20" |} []
  = (Raised TypeError,
     [ParseCall (JStr "20"); tweet_call tweet_unknown "20"]).
Proof.
  apply (handler_tweet_missing tweet_unknown (QSingle "20") [] (id := "20")
           (tweetResponse := {| json := Answer not_found_body |})
           (tweetBody := not_found_body));
    reflexivity.
Defined.

Lemma handler_user_lookup_failure_witness :
  handler user_lookup_down {| query_url := QSingle "20" |} []
  = (Raised (Rejected "timeout"),
     [ParseCall (JStr "20"); tweet_call user_lookup_down "20";
      user_call user_lookup_down example_tweet]).
Proof.
  apply (handler_user_lookup_failure user_lookup_down (QSingle "20") []
           (id := "20")
           (tweetResponse :=
              {| json := Answer (JObj [("data", JArr [example_tweet])]) |})
           (tweetBody := JObj [("data", JArr [example_tweet])]));
    try reflexivity.
  left. reflexivity.
Defined.

Lemma handler_user_body_null_witness :
  handler user_body_null {| query_url := QSingle "20" |} []
  = (Raised TypeError,
     [ParseCall (JStr "20"); tweet_call user_body_null "20";
      user_call user_body_null example_tweet]).
Proof.
  apply (handler_user_body_null user_body_null (QSingle "20") []
           (id := "20")
           (tweetResponse :=
              {| json := Answer (JObj [("data", JArr [example_tweet])]) |})
           (tweetBody := JObj [("data", JArr [example_tweet])])
           (userResponse := {| json := Answer JNull |}));
    reflexivity.
Defined.

Lemma handler_unset_token_witness :
  exists outcome rest,
    handler token_unset {| query_url := QSingle "20" |} []
    = (outcome,
       ParseCall (JStr "20")
         :: FetchCall (tweet_url token_unset "20")
              {| headers := [("authorization", "Bearer undefined")] |}
         :: rest).
Proof.
  apply (handler_unset_token token_unset (QSingle "20") [] (id := "20"));
    reflexivity.
Defined.

End TwitterApiMore.
